(** * RSSpythemes.fonts: the font accessor, embedded and verified

    A shallow embedding of [RSSpythemes/fonts/__init__.py].  The module talks
    to two things outside itself: the directory of bundled typeface files and
    matplotlib's font manager.  Both are part of an explicit [World]; every
    Python function becomes a computation in a small state-and-exception
    monad over that world. *)

From stdpp Require Import base list strings gmap sorting pretty.

Set Default Proof Using "Type".

(** ** Python exceptions *)

(** The exception classes that occur in the module or that its external calls
    raise: [BaseException] with [KeyboardInterrupt], [SystemExit] and
    [GeneratorExit], which an [except Exception] clause lets pass, and
    [Exception] with the errors below it. *)
Inductive exc_class :=
  | BaseException
  | KeyboardInterrupt
  | SystemExit
  | GeneratorExit
  | Exception
  | ImportError
  | AttributeError
  | NameError
  | OSError
  | TimeoutError
  | RuntimeError
  | ValueError
  | UnicodeEncodeError.

Global Instance exc_class_eq_dec : EqDecision exc_class.
Proof. solve_decision. Defined.

(** The direct base class, [None] at the root of the modelled hierarchy. *)
Definition base_class (c : exc_class) : option exc_class :=
  match c with
  | BaseException => None
  | KeyboardInterrupt | SystemExit | GeneratorExit | Exception => Some BaseException
  | TimeoutError => Some OSError
  | UnicodeEncodeError => Some ValueError
  | _ => Some Exception
  end.

Fixpoint issubclass_fuel (n : nat) (c d : exc_class) : bool :=
  if bool_decide (c = d) then true
  else match n, base_class c with
       | S n', Some b => issubclass_fuel n' b d
       | _, _ => false
       end.

Definition issubclass : exc_class → exc_class → bool := issubclass_fuel 3.

Record exn := { exn_class : exc_class; exn_msg : string }.

Definition isinstance (e : exn) (c : exc_class) : bool :=
  issubclass (exn_class e) c.

(** What evaluating a Python expression or statement yields. *)
Inductive outcome (A : Type) :=
  | Return (a : A)
  | Raise (e : exn).
Arguments Return {A} a.
Arguments Raise {A} e.

Definition returned {A} (r : outcome A) : bool :=
  match r with Return _ => true | Raise _ => false end.

(** ** Paths *)

Record Path := { parent : string; name : string }.

(** [str(p)] *)
Definition str (p : Path) : string := parent p +:+ "/" +:+ name p.

(** [p / child] *)
Definition joinpath (p : Path) (child : string) : Path :=
  {| parent := str p; name := child |}.

(** [s.endswith(suffix)]: some tail of [s] is [suffix]. *)
Fixpoint endswith (s suffix : string) : bool :=
  if String.eqb s suffix then true
  else match s with
       | EmptyString => false
       | String _ s' => endswith s' suffix
       end.

(** Match of a file name against the pattern ["*.ttf"]: pathlib's [*] matches
    any run of characters, a leading dot included; matching is
    case-sensitive as on POSIX. *)
Definition fnmatch_ttf (filename : string) : bool := endswith filename ".ttf".

(** ** The external font manager *)

Module FontEntry.
(** An entry of [fontManager.ttflist]: the file and the family name. *)
Record t := { fname : string; name : string }.
End FontEntry.

(** [matplotlib.font_manager] as far as the module uses it.  [FM] is the
    library's process-wide state; a call returns or raises and leaves a new
    state either way.  [_rebuild] is [None] in the versions of the library
    that do not have the attribute. *)
Class FontManagerModule (FM : Type) := {
  addfont : string → FM → outcome unit * FM;
  ttflist : FM → list FontEntry.t;
  _rebuild : option (FM → outcome unit * FM)
}.

(** ** The world and the monad *)

(** What the module does to the outside, in order. *)
Inductive Event :=
  | EvExists (path : string)
  | EvGlob (path : string)
  | EvAddfont (path : string) (ok : bool)
  | EvRebuild
  | EvPrint (line : string).

Global Instance Event_eq_dec : EqDecision Event.
Proof. solve_decision. Defined.

Definition is_print (e : Event) : bool :=
  match e with EvPrint _ => true | _ => false end.

(** The events other than printed lines. *)
Definition effects (evs : list Event) : list Event :=
  filter (λ e, is_print e = false) evs.

Section World.
Context {FM : Type} `{!FontManagerModule FM}.

(** - [package_dir]: [Path(__file__).parent];
    - [fs]: the file system, read-only here: for the path of a directory
      the names of its entries in the order the operating system
      enumerates them, [None] where nothing exists (a plain file behaves
      as [Some []]); [exists] and [glob] answer from it and are taken not
      to raise;
    - [stdout]: the standard output as [print] finds it: for a line the
      error that printing it raises ([ValueError] on a closed stream,
      [UnicodeEncodeError] for a character the encoding lacks, an
      [OSError]), [None] when the line is printed;
    - [fm]: the module-level name [fm], bound only when the import of
      [matplotlib.font_manager] succeeded;
    - [events]: the trace so far. *)
Record World := {
  package_dir : Path;
  fs : string → option (list string);
  stdout : string → option exn;
  fm : option FM;
  events : list Event
}.

Definition M (A : Type) : Type := World → outcome A * World.

Definition ret {A} (a : A) : M A := λ w, (Return a, w).

Definition bind {A B} (m : M A) (k : A → M B) : M B :=
  λ w, match m w with
       | (Return a, w') => k a w'
       | (Raise e, w') => (Raise e, w')
       end.

Definition raise {A} (e : exn) : M A := λ w, (Raise e, w).

(** [try: body  except cls as e: handler] *)
Definition try_except {A} (body : M A) (cls : exc_class) (handler : exn → M A) : M A :=
  λ w, match body w with
       | (Return a, w') => (Return a, w')
       | (Raise e, w') =>
           if isinstance e cls then handler e w' else (Raise e, w')
       end.

(** One statement of a [try] block that has more statements after it:
    [stmt] runs, and if it returns the block goes on with [rest]; if it
    raises an instance of [cls] the block is left for [handler], which sees
    the local variables as they are at that point; any other error
    propagates. *)
Definition try_stmt {A B} (stmt : M A) (cls : exc_class) (handler : exn → M B)
    (rest : A → M B) : M B :=
  λ w, match stmt w with
       | (Return a, w') => rest a w'
       | (Raise e, w') =>
           if isinstance e cls then handler e w' else (Raise e, w')
       end.

(** The world after the font manager moved to state [m] and the events
    [new] happened; the file system is only ever read. *)
Definition advance (w : World) (m : option FM) (new : list Event) : World :=
  {| package_dir := package_dir w; fs := fs w; stdout := stdout w;
     fm := m; events := events w ++ new |}.

Definition emit (e : Event) : M unit :=
  λ w, (Return (), advance w (fm w) [e]).
End World.

Arguments World FM : clear implicits.
Arguments M FM A : clear implicits.
Arguments advance {FM} w m new.

Declare Scope py_scope.
Delimit Scope py_scope with py.
Notation "x <- m ;; k" := (bind m (λ x, k))
  (at level 100, m at next level, right associativity) : py_scope.
Notation "m ;; k" := (bind m (λ _, k))
  (at level 100, right associativity) : py_scope.
Open Scope py_scope.

(** ** Built-ins and external calls *)

Section Primitives.
Context {FM : Type} `{!FontManagerModule FM}.

(** [if cond: body] for a body that is a statement. *)
Definition when (cond : bool) (body : M FM unit) : M FM unit :=
  if cond then body else ret ().

(** [print(line)]: the line is printed, or the error of the standard
    output is raised and nothing is printed. *)
Definition print (line : string) : M FM unit :=
  λ w, match stdout w line with
       | None => emit (EvPrint line) w
       | Some e => (Raise e, w)
       end.

(** [p.exists()] *)
Definition Path_exists (p : Path) : M FM bool :=
  emit (EvExists (str p));;
  λ w, (Return (bool_decide (is_Some (fs w (str p)))), w).

(** [p.glob("*.ttf")], consumed as a list: the children of [p] whose name
    matches, in enumeration order; nothing when [p] is not a directory. *)
Definition Path_glob_ttf (p : Path) : M FM (list Path) :=
  emit (EvGlob (str p));;
  λ w, (Return (joinpath p <$> filter (λ n, fnmatch_ttf n = true)
                                 (default [] (fs w (str p)))), w).

(** The module-level flag set by the guarded import. *)
Definition MATPLOTLIB_AVAILABLE : M FM bool :=
  λ w, (Return (bool_decide (is_Some (fm w))), w).

Definition unbound_fm : exn :=
  {| exn_class := NameError; exn_msg := "name 'fm' is not defined" |}.

(** [fm.fontManager.addfont(path)] *)
Definition fm_fontManager_addfont (path : string) : M FM unit :=
  λ w, match fm w with
       | None => (Raise unbound_fm, w)
       | Some m =>
           let r := addfont path m in
           (r.1, advance w (Some r.2) [EvAddfont path (returned r.1)])
       end.

Definition no_rebuild : exn :=
  {| exn_class := AttributeError;
     exn_msg := "module 'matplotlib.font_manager' has no attribute '_rebuild'" |}.

(** Looking up the attribute [_rebuild] of the library and calling it. *)
Definition rebuild_call (m : FM) : outcome unit * FM :=
  match _rebuild with
  | None => (Raise no_rebuild, m)
  | Some f => f m
  end.

(** [fm._rebuild()]; [EvRebuild] records that the statement was reached. *)
Definition fm__rebuild : M FM unit :=
  λ w, match fm w with
       | None => (Raise unbound_fm, w)
       | Some m =>
           let r := rebuild_call m in
           (r.1, advance w (Some r.2) [EvRebuild])
       end.

(** [fm.fontManager.ttflist] *)
Definition fm_fontManager_ttflist : M FM (list FontEntry.t) :=
  λ w, match fm w with
       | None => (Raise unbound_fm, w)
       | Some m => (Return (ttflist m), w)
       end.
End Primitives.

(** [sorted(names)] on strings: ascending in the lexicographic order of
    [str], stable. *)
Definition sorted (names : list string) : list string :=
  merge_sort String.le names.

(** ** The module's functions *)

Section Fonts.
Context {FM : Type} `{!FontManagerModule FM}.

Definition get_font_path : M FM Path :=
  λ w, (Return (joinpath (package_dir w) "source_sans_pro"), w).

Definition list_available_fonts : M FM (list string) :=
  font_dir <- get_font_path;;
  present <- Path_exists font_dir;;
  if negb present then ret []
  else
    font_files <- Path_glob_ttf font_dir;;
    ret (sorted (name <$> font_files)).

Definition capability_unavailable : exn :=
  {| exn_class := ImportError;
     exn_msg := "matplotlib is required to register fonts. " +:+
                "Install it with: pip install matplotlib" |}.

(** The [for] loop of [register_source_sans_fonts], carrying
    [registered_count].  The [try] block has three statements: the call of
    [addfont], the increment, and the print of a verbose call; an error of
    the print reaches the handler with the count already incremented. *)
Fixpoint register_loop (verbose : bool) (font_files : list Path)
    (registered_count : nat) : M FM nat :=
  match font_files with
  | [] => ret registered_count
  | font_file :: font_files =>
      let handler (registered_count : nat) (e : exn) : M FM nat :=
        when verbose
          (print ("Failed to register " +:+ name font_file +:+
                  ": " +:+ exn_msg e));;
        ret registered_count in
      registered_count <-
        try_stmt (fm_fontManager_addfont (str font_file))
          Exception (handler registered_count) (λ _,
        let registered_count := registered_count + 1 in
        try_stmt (when verbose (print ("Registered: " +:+ name font_file)))
          Exception (handler registered_count) (λ _,
        ret registered_count));;
      register_loop verbose font_files registered_count
  end.

Definition register_source_sans_fonts (verbose : bool) : M FM bool :=
  available <- MATPLOTLIB_AVAILABLE;;
  if negb available then raise capability_unavailable
  else
    font_dir <- get_font_path;;
    present <- Path_exists font_dir;;
    if negb present then
      when verbose (print ("Font directory not found: " +:+ str font_dir));;
      ret false
    else
      font_files <- Path_glob_ttf font_dir;;
      match font_files with
      | [] =>
          when verbose (print ("No font files found in: " +:+ str font_dir));;
          ret false
      | _ =>
          registered_count <- register_loop verbose font_files 0;;
          (if bool_decide (0 < registered_count) then
             try_except fm__rebuild AttributeError (λ _, ret ());;
             when verbose
               (print ("Successfully registered " +:+ pretty registered_count +:+
                       " font(s)"))
           else ret ());;
          ret (bool_decide (0 < registered_count))
      end.

Definition is_source_sans_available : M FM bool :=
  available <- MATPLOTLIB_AVAILABLE;;
  if negb available then ret false
  else
    entries <- fm_fontManager_ttflist;;
    let font_names : gset string := list_to_set (FontEntry.name <$> entries) in
    ret (bool_decide ("Source Sans Pro" ∈ font_names)).

Definition get_source_sans_weights : M FM (gmap string string) :=
  ret (list_to_map
         [("regular", "SourceSansPro-Regular.ttf");
          ("italic", "SourceSansPro-Italic.ttf");
          ("bold", "SourceSansPro-Bold.ttf");
          ("bold_italic", "SourceSansPro-BoldItalic.ttf")]).
End Fonts.

(** ** Stub font managers *)

(** A font manager that records what it is given.  Its state is its
    [ttflist]; [scan path] is what reading the file at [path] as a font
    gives, the entry to record or the error; [rebuild] is the fixed outcome
    of [_rebuild] where the attribute exists, and leaves the record alone. *)
Definition recording_fm (scan : string → outcome FontEntry.t)
    (rebuild : option (outcome unit)) : FontManagerModule (list FontEntry.t) :=
  {| addfont path known :=
       match scan path with
       | Return entry => (Return (), known ++ [entry])
       | Raise e => (Raise e, known)
       end;
     ttflist known := known;
     _rebuild := (λ r known, (r, known)) <$> rebuild |}.

Definition not_a_font : exn :=
  {| exn_class := RuntimeError; exn_msg := "Can not load face" |}.

Definition lock_timeout : exn :=
  {| exn_class := TimeoutError; exn_msg := "Lock error: font cache is locked" |}.

(** Reads every [SourceSansPro-*] file as a face of the family and nothing
    else as a font. *)
Definition scan_bundled (path : string) : outcome FontEntry.t :=
  if bool_decide (is_Some (String.index 0 "/SourceSansPro-" path)) then
    Return {| FontEntry.fname := path; FontEntry.name := "Source Sans Pro" |}
  else Raise not_a_font.

(** Three font managers over the bundled scan: without [_rebuild], with one
    that works, and with one that fails on the lock of the font cache. *)
Definition fm_without_rebuild : FontManagerModule (list FontEntry.t) :=
  recording_fm scan_bundled None.

Definition fm_with_rebuild : FontManagerModule (list FontEntry.t) :=
  recording_fm scan_bundled (Some (Return ())).

Definition fm_locked_cache : FontManagerModule (list FontEntry.t) :=
  recording_fm scan_bundled (Some (Raise lock_timeout)).

Definition site_packages : Path :=
  {| parent := "/usr/lib/python3/site-packages/RSSpythemes"; name := "fonts" |}.

(** A file system whose only directory is the font directory. *)
Definition fs_with (entries : option (list string)) (path : string) : option (list string) :=
  if String.eqb path (str (joinpath site_packages "source_sans_pro"))
  then entries else None.

(** A world with a standard output that prints every line. *)
Definition world_of {FM} (entries : option (list string)) (m : option FM) : World FM :=
  {| package_dir := site_packages; fs := fs_with entries;
     stdout := λ _, None; fm := m; events := [] |}.

Definition closed_file : exn :=
  {| exn_class := ValueError; exn_msg := "I/O operation on closed file." |}.

(** The same world with the standard output closed. *)
Definition world_closed_stdout {FM} (entries : option (list string))
    (m : option FM) : World FM :=
  {| package_dir := site_packages; fs := fs_with entries;
     stdout := λ _, Some closed_file; fm := m; events := [] |}.

Definition ctrl_c : exn :=
  {| exn_class := KeyboardInterrupt; exn_msg := "" |}.

(** A font manager interrupted from the keyboard while it reads any file
    whose name starts with [slow]. *)
Definition fm_interrupted : FontManagerModule (list FontEntry.t) :=
  recording_fm
    (λ path, if bool_decide (is_Some (String.index 0 "/slow" path))
             then Raise ctrl_c else scan_bundled path)
    (Some (Return ())).

(** ** What a call does, stated on the world

    The outcomes of the calls into the font manager, without the monad; the
    code is compared with these below. *)

Section Specification.
Context {FM : Type} `{!FontManagerModule FM}.

(** The family names the font manager knows; none without a font
    manager. *)
Definition known_families (w : World FM) : list string :=
  match fm w with
  | Some m => FontEntry.name <$> ttflist m
  | None => []
  end.

(** The files a call of [register_source_sans_fonts] enumerates. *)
Definition enumerated (w : World FM) : list Path :=
  let font_dir := joinpath (package_dir w) "source_sans_pro" in
  joinpath font_dir <$>
    filter (λ n, fnmatch_ttf n = true) (default [] (fs w (str font_dir))).

(** An outcome that [except Exception] does not catch. *)
Definition interrupts (r : outcome unit) : bool :=
  match r with
  | Return _ => false
  | Raise e => negb (isinstance e Exception)
  end.

(** Handing [files] to [addfont] one after another from state [m], up to
    the first call whose error is not an [Exception]: each file with the
    outcome of its call. *)
Fixpoint attempts (files : list Path) (m : FM) : list (Path * outcome unit) :=
  match files with
  | [] => []
  | file :: files =>
      let r := addfont (str file) m in
      (file, r.1) :: if interrupts r.1 then [] else attempts files r.2
  end.

(** The state of the font manager after those calls. *)
Fixpoint after_attempts (files : list Path) (m : FM) : FM :=
  match files with
  | [] => m
  | file :: files =>
      let r := addfont (str file) m in
      if interrupts r.1 then r.2 else after_attempts files r.2
  end.

(** The error that ended the calls, if one did. *)
Fixpoint interrupted (atts : list (Path * outcome unit)) : option exn :=
  match atts with
  | [] => None
  | a :: atts =>
      match a.2 with
      | Raise e => if isinstance e Exception then interrupted atts else Some e
      | Return _ => interrupted atts
      end
  end.

(** Every line is printed: the standard output raises for none. *)
Definition print_works (w : World FM) : Prop := ∀ line, stdout w line = None.

Definition successes (atts : list (Path * outcome unit)) : nat :=
  length (filter (λ a, returned a.2 = true) atts).

Definition said (verbose : bool) (line : string) : list Event :=
  if verbose then [EvPrint line] else [].

Definition attempt_events (verbose : bool) (a : Path * outcome unit) : list Event :=
  EvAddfont (str a.1) (returned a.2) ::
  if interrupts a.2 then []
  else
    said verbose
      match a.2 with
      | Return _ => "Registered: " +:+ name a.1
      | Raise e => "Failed to register " +:+ name a.1 +:+ ": " +:+ exn_msg e
      end.


(** Whether the [except AttributeError] clause lets the outcome of the
    rebuild pass. *)
Definition tolerated (r : outcome unit) : bool :=
  match r with
  | Return _ => true
  | Raise e => isinstance e AttributeError
  end.

(** The three parts of what a call does when the font manager is there,
    in state [m], and every line of a verbose call is printed: what it
    returns or raises, the state it leaves the font manager in, and the
    events it adds. *)
Definition register_result (w : World FM) (m : FM) : outcome bool :=
  let atts := attempts (enumerated w) m in
  let rb := rebuild_call (after_attempts (enumerated w) m) in
  match interrupted atts with
  | Some e => Raise e
  | None =>
      if bool_decide (0 < successes atts) then
        match rb.1 with
        | Return _ => Return true
        | Raise e => if isinstance e AttributeError then Return true else Raise e
        end
      else Return false
  end.

Definition register_state (w : World FM) (m : FM) : FM :=
  let atts := attempts (enumerated w) m in
  let rb := rebuild_call (after_attempts (enumerated w) m) in
  if interrupted atts is Some _ then after_attempts (enumerated w) m
  else if bool_decide (0 < successes atts) then rb.2
  else after_attempts (enumerated w) m.

Definition register_events (verbose : bool) (w : World FM) (m : FM) : list Event :=
  let font_dir := joinpath (package_dir w) "source_sans_pro" in
  let atts := attempts (enumerated w) m in
  let rb := rebuild_call (after_attempts (enumerated w) m) in
  EvExists (str font_dir) ::
  match fs w (str font_dir) with
  | None => said verbose ("Font directory not found: " +:+ str font_dir)
  | Some _ =>
      EvGlob (str font_dir) ::
      if bool_decide (enumerated w = []) then
        said verbose ("No font files found in: " +:+ str font_dir)
      else
        (atts ≫= attempt_events verbose) ++
        if interrupted atts is Some _ then []
        else if bool_decide (0 < successes atts) then
          EvRebuild ::
          if tolerated rb.1 then
            said verbose ("Successfully registered " +:+
                          pretty (successes atts) +:+ " font(s)")
          else []
        else []
  end.

Definition register_spec (verbose : bool) (w : World FM) : outcome bool * World FM :=
  match fm w with
  | None => (Raise capability_unavailable, w)
  | Some m =>
      (register_result w m,
       advance w (Some (register_state w m)) (register_events verbose w m))
  end.
End Specification.

(** ** The bundled assets *)

(** Modelled from the spec: the content of the bundled directory
    [fonts/source_sans_pro], which holds font files only and is not part of
    the sources.  The file-system layout of the specification names four
    files and allows further weight files next to them. *)
Definition bundled_layout (entries : list string) : Prop :=
  ["SourceSansPro-Regular.ttf"; "SourceSansPro-Italic.ttf";
   "SourceSansPro-Bold.ttf"; "SourceSansPro-BoldItalic.ttf"] ⊆ entries.

(** ** Reading a trace *)

(** The events a call added: those of the world after it beyond those of the
    world before it. *)
Definition new_events {FM} (w w' : World FM) : list Event :=
  drop (length (events w)) (events w').

(** The paths handed to [addfont], in order. *)
Definition attempted (evs : list Event) : list string :=
  omap (λ e, match e with EvAddfont path _ => Some path | _ => None end) evs.

(** The paths whose [addfont] call returned, in order. *)
Definition registered (evs : list Event) : list string :=
  omap (λ e, match e with EvAddfont path true => Some path | _ => None end) evs.

(** The lines printed, in order. *)
Definition printed (evs : list Event) : list string :=
  omap (λ e, match e with EvPrint line => Some line | _ => None end) evs.



(** Strictly ascending in the order of [str]. *)
Definition str_lt (s1 s2 : string) : Prop := String.le s1 s2 ∧ s1 ≠ s2.

(** The same world with an earlier history put before its trace. *)
Definition rebase {FM} (history : list Event) (w : World FM) : World FM :=
  {| package_dir := package_dir w; fs := fs w; stdout := stdout w;
     fm := fm w; events := history ++ events w |}.

(** A computation that does not look at the trace: with a longer history it
    ends the same way and adds the same events. *)
Definition history_blind {FM A} (c : M FM A) : Prop :=
  ∀ history w, c (rebase history w) = ((c w).1, rebase history (c w).2).

(** * Properties *)

(** ** Exceptions, names and sorting *)

Lemma endswith_cons (c : Ascii.ascii) (s suffix : string) :
  endswith (String c s) suffix =
  if String.eqb (String c s) suffix then true else endswith s suffix.
Proof. reflexivity. Qed.

Lemma endswith_spec (s suffix : string) :
  endswith s suffix = true ↔ ∃ stem, s = stem +:+ suffix.
Proof.
  split.
  - induction s as [|c s IH].
    + destruct suffix; simpl; [by exists ""|discriminate].
    + rewrite endswith_cons.
      destruct (String.eqb_spec (String c s) suffix) as [->|_].
      * by exists "".
      * intros [stem ->]%IH. by exists (String c stem).
  - intros [stem ->]. induction stem as [|c stem IH].
    + change ("" +:+ suffix) with suffix.
      destruct suffix; [done|]. by rewrite endswith_cons, String.eqb_refl.
    + change (String c stem +:+ suffix) with (String c (stem +:+ suffix)).
      rewrite endswith_cons, IH. by destruct (String.eqb _ _).
Qed.

Lemma sorted_StronglySorted (names : list string) :
  StronglySorted String.le (sorted names).
Proof. apply (StronglySorted_merge_sort String.le). Qed.

Lemma sorted_Permutation (names : list string) : sorted names ≡ₚ names.
Proof. apply (merge_sort_Permutation String.le). Qed.

(** A sorted list is determined by its elements. *)
Lemma sorted_unique (l1 l2 : list string) :
  StronglySorted String.le l1 → StronglySorted String.le l2 → l1 ≡ₚ l2 → l1 = l2.
Proof. apply (StronglySorted_unique String.le). Qed.

(** ** The code against its description *)

Section Refinement.
Context {FM : Type} `{!FontManagerModule FM}.
Implicit Types (w : World FM).

Lemma advance_advance w m1 m2 new1 new2 :
  advance (advance w m1 new1) m2 new2 = advance w m2 (new1 ++ new2).
Proof. unfold advance; simpl. by rewrite (assoc_L (++)). Qed.

Lemma advance_nil w : advance w (fm w) [] = w.
Proof. destruct w; unfold advance; simpl. by rewrite (right_id_L [] (++)). Qed.


Lemma print_run w line :
  print_works w → print line w = (Return (), advance w (fm w) [EvPrint line]).
Proof. intros Hout. unfold print. by rewrite Hout. Qed.

(** A verbose statement when every line is printed, a quiet one always. *)
Lemma when_print_run verbose w line :
  (verbose = true → print_works w) →
  when verbose (print line) w = (Return (), advance w (fm w) (said verbose line)).
Proof.
  intros Hout. destruct verbose; simpl.
  - by apply print_run, Hout.
  - by rewrite advance_nil.
Qed.

Lemma interrupted_cons file (r : outcome unit) atts :
  interrupted ((file, r) :: atts) =
  match r with
  | Raise e => if isinstance e Exception then interrupted atts else Some e
  | Return _ => interrupted atts
  end.
Proof. done. Qed.

Lemma successes_cons file (r : outcome unit) atts :
  successes ((file, r) :: atts) = (if returned r then 1 else 0) + successes atts.
Proof. unfold successes. by destruct r. Qed.

Lemma attempts_cons file files (m : FM) :
  attempts (file :: files) m =
  (file, (addfont (str file) m).1) ::
  if interrupts (addfont (str file) m).1 then []
  else attempts files (addfont (str file) m).2.
Proof. done. Qed.

Lemma after_attempts_cons file files (m : FM) :
  after_attempts (file :: files) m =
  if interrupts (addfont (str file) m).1 then (addfont (str file) m).2
  else after_attempts files (addfont (str file) m).2.
Proof. done. Qed.

Lemma register_loop_cons verbose file files count :
  register_loop verbose (file :: files) count =
  (let handler (registered_count : nat) (e : exn) : M FM nat :=
     when verbose
       (print ("Failed to register " +:+ name file +:+ ": " +:+ exn_msg e));;
     ret registered_count in
   registered_count <-
     try_stmt (fm_fontManager_addfont (str file))
       Exception (handler count) (λ _,
     try_stmt (when verbose (print ("Registered: " +:+ name file)))
       Exception (handler (count + 1)) (λ _,
     ret (count + 1)));;
   register_loop verbose files registered_count).
Proof. done. Qed.

Lemma register_loop_spec verbose files count w m :
  fm w = Some m →
  (verbose = true → print_works w) →
  register_loop verbose files count w =
  (match interrupted (attempts files m) with
   | Some e => Raise e
   | None => Return (count + successes (attempts files m))
   end,
   advance w (Some (after_attempts files m))
     (attempts files m ≫= attempt_events verbose)).
Proof.
  revert count w m. induction files as [|file files IH]; intros count w m Hm Hout.
  - simpl. unfold ret, successes. simpl.
    by rewrite Nat.add_0_r, <-Hm, advance_nil.
  - rewrite register_loop_cons, attempts_cons, after_attempts_cons. cbv zeta.
    unfold bind at 1, try_stmt at 1, fm_fontManager_addfont. rewrite Hm.
    destruct (addfont (str file) m) as [[[]|e] m'] eqn:Hadd; cbn [fst snd interrupts].
    + unfold try_stmt. rewrite when_print_run by done. unfold ret.
      erewrite IH; [|done..]. rewrite !advance_advance.
      rewrite interrupted_cons, successes_cons, bind_cons.
      unfold attempt_events at 2. cbn [fst snd interrupts returned].
      destruct (interrupted _); f_equal; f_equal; lia.
    + destruct (isinstance e Exception) eqn:Hcls; cbn [negb].
      * unfold bind at 1. rewrite when_print_run by done. unfold ret.
        erewrite IH; [|done..]. rewrite !advance_advance.
        rewrite interrupted_cons, Hcls, successes_cons, bind_cons.
        unfold attempt_events at 2. cbn [fst snd interrupts returned].
        by rewrite Hcls.
      * rewrite interrupted_cons, Hcls, bind_cons. unfold attempt_events.
        cbn [fst snd interrupts returned]. rewrite Hcls. cbn [negb].
        done.
Qed.
Lemma list_case {A B} (l : list A) (a b : B) :
  match l with [] => a | _ :: _ => b end = if bool_decide (l = []) then a else b.
Proof. by destruct l. Qed.

Lemma register_source_sans_fonts_spec verbose w :
  (verbose = true → print_works w) →
  register_source_sans_fonts verbose w = register_spec verbose w.
Proof.
  intros Hout.
  unfold register_source_sans_fonts, register_spec.
  unfold register_result, register_state, register_events, enumerated.
  unfold bind at 1, MATPLOTLIB_AVAILABLE.
  destruct (fm w) as [m|] eqn:Hm; simpl; [|done].
  unfold bind at 1, get_font_path.
  set (font_dir := joinpath (package_dir w) "source_sans_pro").
  unfold bind at 1, Path_exists, bind at 1, emit; simpl.
  destruct (fs w (str font_dir)) as [entries|] eqn:Hdir; simpl.
  - unfold bind at 1, Path_glob_ttf, bind at 1, emit; simpl.
    rewrite Hdir, Hm; simpl.
    generalize (joinpath font_dir <$> filter (λ n, fnmatch_ttf n = true) entries).
    intros files. rewrite list_case. case_bool_decide as Hfiles.
    { subst files. unfold bind. rewrite when_print_run by done. unfold ret.
      simpl. by rewrite !advance_advance. }
    unfold bind at 1. erewrite register_loop_spec by done.
    rewrite advance_advance.
    destruct (interrupted (attempts files m)) as [e|];
      [by rewrite advance_advance, (right_id_L [] (++))|].
    rewrite Nat.add_0_l.
    case_bool_decide as Hsucc; simpl.
    + unfold bind at 1, bind at 1, try_except, fm__rebuild; simpl.
      destruct (rebuild_call (after_attempts files m)) as [[[]|e] m'];
        simpl; [|destruct (isinstance e AttributeError)];
        rewrite ?advance_advance, <-?(assoc_L (++)); simpl;
        rewrite ?when_print_run by done; unfold ret;
        rewrite ?advance_advance; simpl; by rewrite <-?(assoc_L (++)).
    + unfold bind, ret; simpl.
      by rewrite advance_advance, (right_id_L [] (++)).
  - rewrite Hm. unfold bind. rewrite when_print_run by done. unfold ret.
    by rewrite advance_advance.
Qed.
End Refinement.

(** ** Events and prints *)

Lemma effects_app evs1 evs2 : effects (evs1 ++ evs2) = effects evs1 ++ effects evs2.
Proof. apply filter_app. Qed.

Lemma effects_cons e evs :
  effects (e :: evs) = (if is_print e then [] else [e]) ++ effects evs.
Proof. by destruct e. Qed.

Ltac effects_norm :=
  repeat first [rewrite effects_app | rewrite effects_cons];
  cbn [is_print].

Section Printing.
Context {FM : Type} `{!FontManagerModule FM}.
Implicit Types (w : World FM).

(** A print in passing: the line is printed, or nothing is and the error of
    the standard output is raised. *)
Lemma when_print_cases verbose line w :
  (∃ pr, when verbose (print line) w = (Return (), advance w (fm w) pr) ∧
         effects pr = []) ∨
  (∃ e, verbose = true ∧ stdout w line = Some e ∧
        when verbose (print line) w = (Raise e, w)).
Proof.
  destruct verbose; simpl.
  - unfold print. destruct (stdout w line) as [e|] eqn:Hout.
    + right. by exists e.
    + left. by exists [EvPrint line].
  - left. exists []. by rewrite advance_nil.
Qed.

End Printing.

Ltac print_step :=
  match goal with
  | |- context [when ?v (print ?l) ?w0] =>
      destruct (when_print_cases v l w0) as [(pr & -> & Hpr)|(e' & _ & _ & ->)]
  end.

(** ** How far a call gets, whatever is raised *)

Section Progress.
Context {FM : Type} `{!FontManagerModule FM}.
Implicit Types (w : World FM).

Lemma attempts_one file (m : FM) :
  attempts [file] m = [(file, (addfont (str file) m).1)].
Proof. rewrite attempts_cons. by destruct (interrupts _). Qed.

Lemma after_attempts_one file (m : FM) :
  after_attempts [file] m = (addfont (str file) m).2.
Proof. rewrite after_attempts_cons. by destruct (interrupts _). Qed.

(** The handler of the loop: it prints, if the call is verbose, and hands
    the count on, or the print raises. *)
Lemma handler_cases verbose line (count : nat) w :
  (∃ pr, (when verbose (print line);; ret count) w =
           (Return count, advance w (fm w) pr) ∧ effects pr = []) ∨
  (∃ e, (when verbose (print line);; ret count) w = (Raise e, w)).
Proof.
  unfold bind.
  destruct (when_print_cases verbose line w) as [(pr & -> & ?)|(e & _ & _ & ->)].
  - left. by exists pr.
  - right. by exists e.
Qed.

(** The loop, whatever [addfont] and [print] raise: it gets through the
    first [k] files, leaves the font manager as the calls for those files
    left it, and has made exactly those calls; if it returns, it got
    through all files and its count went up by the number that
    registered. *)
Lemma register_loop_progress verbose files count w m :
  fm w = Some m →
  ∃ k new r,
    register_loop verbose files count w =
      (r, advance w (Some (after_attempts (take k files) m)) new) ∧
    effects new =
      (λ a, EvAddfont (str a.1) (returned a.2)) <$> attempts (take k files) m ∧
    ∀ n, r = Return n →
      take k files = files ∧ interrupted (attempts files m) = None ∧
      n = count + successes (attempts files m).
Proof.
  revert count w m. induction files as [|file files IH]; intros count w m Hm.
  { exists 0, [], (Return count). simpl. rewrite <-Hm, advance_nil.
    split_and!; [done..|]. intros n [= <-]. unfold successes. simpl.
    split_and!; [done..|lia]. }
  assert (∀ r (pr : list Event),
    effects pr = [] →
    ∃ k new r',
      (r, advance w (Some (addfont (str file) m).2)
            (EvAddfont (str file) (returned (addfont (str file) m).1) :: pr)) =
      (r', advance w (Some (after_attempts (take k (file :: files)) m)) new) ∧
      effects new =
        (λ a, EvAddfont (str a.1) (returned a.2)) <$>
          attempts (take k (file :: files)) m ∧
      (∀ e, r = @Raise nat e → ∀ n, r' = Return n →
         take k (file :: files) = file :: files ∧
         interrupted (attempts (file :: files) m) = None ∧
         n = count + successes (attempts (file :: files) m))) as Hstop.
  { intros r pr Hpr. exists 1, (EvAddfont (str file) (returned (addfont (str file) m).1) :: pr), r.
    cbn [take]. rewrite attempts_one, after_attempts_one.
    split_and!; [done| |by intros e -> n].
    change (?a :: ?l) with ([a] ++ l). by rewrite effects_app, Hpr. }
  assert (∀ count' (pr : list Event),
    effects pr = [] →
    interrupts (addfont (str file) m).1 = false →
    count' = count + (if returned (addfont (str file) m).1 then 1 else 0) →
    ∃ k new r,
      register_loop verbose files count'
        (advance w (Some (addfont (str file) m).2)
           (EvAddfont (str file) (returned (addfont (str file) m).1) :: pr)) =
      (r, advance w (Some (after_attempts (take k (file :: files)) m)) new) ∧
      effects new =
        (λ a, EvAddfont (str a.1) (returned a.2)) <$>
          attempts (take k (file :: files)) m ∧
      (∀ n, r = Return n →
         take k (file :: files) = file :: files ∧
         interrupted (attempts (file :: files) m) = None ∧
         n = count + successes (attempts (file :: files) m))) as Hgo.
  { intros count' pr Hpr Hcaught ->.
    edestruct (IH (count + (if returned (addfont (str file) m).1 then 1 else 0))
                 (advance w (Some (addfont (str file) m).2)
                    (EvAddfont (str file) (returned (addfont (str file) m).1) :: pr))
                 (addfont (str file) m).2 eq_refl)
      as (k & new & r & -> & Heff & Hret).
    exists (S k), ((EvAddfont (str file) (returned (addfont (str file) m).1) :: pr)
                   ++ new), r.
    cbn [take]. rewrite attempts_cons, after_attempts_cons, Hcaught.
    rewrite advance_advance. split_and!; [done| |].
    - rewrite effects_app, Heff.
      change (?a :: ?l) with ([a] ++ l) at 1. by rewrite effects_app, Hpr.
    - intros n Hn. destruct (Hret n Hn) as (Htake & Hint & ->).
      rewrite Htake, attempts_cons, Hcaught, interrupted_cons, successes_cons.
      split_and!; [done| |lia].
      destruct (addfont (str file) m).1 as [|e]; [done|].
      simpl in Hcaught. by destruct (isinstance e Exception). }
  rewrite register_loop_cons. cbv zeta.
  unfold bind at 1, try_stmt at 1, fm_fontManager_addfont. rewrite Hm.
  destruct (addfont (str file) m) as [[[]|e] m'] eqn:Hadd; cbn [fst snd].
  - unfold try_stmt at 1.
    destruct (when_print_cases verbose ("Registered: " +:+ name file)
                (advance w (Some m') [EvAddfont (str file) (returned (@Return unit ()))]))
      as [(pr & -> & Hpr)|(e & _ & _ & ->)].
    + unfold ret. rewrite advance_advance. cbn [fst snd returned app] in *.
      by apply (Hgo (count + 1) pr).
    + destruct (isinstance e Exception).
      * destruct (handler_cases verbose
                    ("Failed to register " +:+ name file +:+ ": " +:+ exn_msg e)
                    (count + 1)
                    (advance w (Some m')
                       [EvAddfont (str file) (returned (@Return unit ()))]))
          as [(pr & -> & Hpr)|(e' & ->)].
        -- rewrite advance_advance. cbn [fst snd returned app] in *.
           by apply (Hgo (count + 1) pr).
        -- destruct (Hstop (Raise e') [] eq_refl) as (k & new & r' & Heq & ? & Hret).
           exists k, new, r'. split_and!; [done..|].
           injection Heq as <- _. by intros n ?.
      * destruct (Hstop (Raise e) [] eq_refl) as (k & new & r' & Heq & ? & Hret).
        exists k, new, r'. split_and!; [done..|].
        injection Heq as <- _. by intros n ?.
  - destruct (isinstance e Exception) eqn:Hcls.
    + destruct (handler_cases verbose
                  ("Failed to register " +:+ name file +:+ ": " +:+ exn_msg e)
                  count
                  (advance w (Some m') [EvAddfont (str file) (returned (@Raise unit e))]))
        as [(pr & -> & Hpr)|(e' & ->)].
      * rewrite advance_advance. cbn [fst snd returned app] in *.
        apply (Hgo count pr); [done|by simpl; rewrite Hcls|lia].
      * destruct (Hstop (Raise e') [] eq_refl) as (k & new & r' & Heq & ? & Hret).
        exists k, new, r'. split_and!; [done..|].
        injection Heq as <- _. by intros n ?.
    + destruct (Hstop (Raise e) [] eq_refl) as (k & new & r' & Heq & ? & Hret).
      exists k, new, r'. split_and!; [done..|].
      injection Heq as <- _. by intros n ?.
Qed.
Lemma enumerated_nil w :
  fs w (str (joinpath (package_dir w) "source_sans_pro")) = None →
  enumerated w = [].
Proof. unfold enumerated. by intros ->. Qed.

(** The whole call, whatever is raised: it starts with the test of the font
    directory, gets through the first [k] files, and attempts the rebuild
    only after all of them, when one registered; if it returns, it got
    through all files and returns whether one registered. *)
Lemma register_progress verbose w m :
  fm w = Some m →
  let font_dir := joinpath (package_dir w) "source_sans_pro" in
  ∃ k (rebuilt : bool) rest r,
    register_source_sans_fonts verbose w =
      (r, advance w
            (Some (if rebuilt
                   then (rebuild_call (after_attempts (enumerated w) m)).2
                   else after_attempts (take k (enumerated w)) m))
            (EvExists (str font_dir) :: rest)) ∧
    effects rest =
      (if fs w (str font_dir) is Some _ then [EvGlob (str font_dir)] else []) ++
      ((λ a, EvAddfont (str a.1) (returned a.2)) <$>
         attempts (take k (enumerated w)) m) ++
      (if rebuilt then [EvRebuild] else []) ∧
    (rebuilt = true →
       take k (enumerated w) = enumerated w ∧
       interrupted (attempts (enumerated w) m) = None ∧
       0 < successes (attempts (enumerated w) m)) ∧
    (∀ b, r = Return b →
       take k (enumerated w) = enumerated w ∧
       interrupted (attempts (enumerated w) m) = None ∧
       b = bool_decide (0 < successes (attempts (enumerated w) m)) ∧
       rebuilt = b).
Proof.
  intros Hm font_dir.
  unfold register_source_sans_fonts.
  unfold bind at 1, MATPLOTLIB_AVAILABLE. rewrite Hm. simpl.
  unfold bind at 1, get_font_path. fold font_dir.
  unfold bind at 1, Path_exists, bind at 1, emit; simpl.
  destruct (fs w (str font_dir)) as [entries|] eqn:Hdir; simpl.
  - unfold bind at 1, Path_glob_ttf, bind at 1, emit; simpl.
    rewrite Hdir, Hm; simpl.
    assert (enumerated w =
            joinpath font_dir <$> filter (λ n, fnmatch_ttf n = true) entries)
      as <-.
    { unfold enumerated. fold font_dir. by rewrite Hdir. }
    rewrite list_case. case_bool_decide as Hfiles.
    { rewrite Hfiles. unfold bind. rewrite !advance_advance.
      destruct (when_print_cases verbose
                  ("No font files found in: " +:+ str font_dir)
                  (advance w (Some m) ([EvExists (str font_dir)] ++
                                       [EvGlob (str font_dir)])))
        as [(pr & -> & Hpr)|(e & _ & _ & ->)].
      - exists 0, false, (EvGlob (str font_dir) :: pr), (Return false).
        unfold ret. rewrite advance_advance. simpl.
        split_and!; [done| |done|].
        + effects_norm. by rewrite Hpr.
        + by intros b [= <-].
      - exists 0, false, [EvGlob (str font_dir)], (Raise e).
        split_and!; done. }
    unfold bind at 1.
    edestruct (register_loop_progress verbose (enumerated w) 0
                 (advance (advance w (Some m) [EvExists (str font_dir)])
                    (Some m) [EvGlob (str font_dir)]) m eq_refl)
      as (k & new & rl & -> & Heff & Hret).
    rewrite !advance_advance.
    destruct rl as [n|e].
    2:{ exists k, false, (EvGlob (str font_dir) :: new), (Raise e).
        split_and!; [done| |done..].
        effects_norm. by rewrite Heff, (right_id_L [] (++)). }
    destruct (Hret n eq_refl) as (Htake & Hint & ->). rewrite Nat.add_0_l.
    rewrite Htake in *.
    case_bool_decide as Hsucc.
    + unfold bind at 1, bind at 1, try_except, fm__rebuild; simpl.
      destruct (rebuild_call (after_attempts (enumerated w) m))
        as [[[]|e] m'] eqn:Hrb; simpl;
        [|destruct (isinstance e AttributeError); simpl];
        rewrite !advance_advance; try print_step; unfold ret;
        rewrite ?advance_advance.
      * exists k, true, (EvGlob (str font_dir) :: new ++ EvRebuild :: pr),
          (Return true).
        rewrite Htake. simpl.
        split_and!; [by rewrite <-?(assoc_L (++))| |done|].
        -- effects_norm. by rewrite Heff, Hpr.
        -- by intros b [= <-].
      * exists k, true, (EvGlob (str font_dir) :: new ++ [EvRebuild]), (Raise e').
        rewrite Htake. simpl.
        split_and!; [by rewrite <-?(assoc_L (++))| |done..].
        effects_norm. by rewrite Heff.
      * exists k, true, (EvGlob (str font_dir) :: new ++ EvRebuild :: pr),
          (Return true).
        rewrite Htake. simpl.
        split_and!; [by rewrite <-?(assoc_L (++))| |done|].
        -- effects_norm. by rewrite Heff, Hpr.
        -- by intros b [= <-].
      * exists k, true, (EvGlob (str font_dir) :: new ++ [EvRebuild]), (Raise e').
        rewrite Htake. simpl.
        split_and!; [by rewrite <-?(assoc_L (++))| |done..].
        effects_norm. by rewrite Heff.
      * exists k, true, (EvGlob (str font_dir) :: new ++ [EvRebuild]), (Raise e).
        rewrite Htake. simpl.
        split_and!; [by rewrite <-?(assoc_L (++))| |done..].
        effects_norm. by rewrite Heff.
    + unfold bind, ret; simpl.
      exists k, false, (EvGlob (str font_dir) :: new), (Return false).
      rewrite Htake. split_and!; [done| |done|].
      * effects_norm. by rewrite Heff, (right_id_L [] (++)).
      * by intros b [= <-].
  - rewrite Hm. rewrite (enumerated_nil w Hdir). unfold bind.
    destruct (when_print_cases verbose
                ("Font directory not found: " +:+ str font_dir)
                (advance w (Some m) [EvExists (str font_dir)]))
      as [(pr & -> & Hpr)|(e & _ & _ & ->)].
    + exists 0, false, pr, (Return false).
      unfold ret. rewrite advance_advance. simpl.
      split_and!; [done| |done|].
      * by rewrite Hpr.
      * by intros b [= <-].
    + exists 0, false, [], (Raise e). split_and!; done.
Qed.
End Progress.

(** ** Nothing looks at the trace *)

Section HistoryBlind.
Context {FM : Type} `{!FontManagerModule FM}.
Implicit Types (w : World FM).

Lemma rebase_advance history w m new :
  advance (rebase history w) m new = rebase history (advance w m new).
Proof. unfold advance, rebase; simpl. by rewrite (assoc_L (++)). Qed.

Lemma blind_ret {A} (a : A) : history_blind (FM := FM) (ret a).
Proof. done. Qed.

Lemma blind_raise {A} e : history_blind (FM := FM) (A := A) (raise e).
Proof. done. Qed.

Lemma blind_bind {A B} (c : M FM A) (k : A → M FM B) :
  history_blind c → (∀ a, history_blind (k a)) → history_blind (bind c k).
Proof.
  intros Hc Hk history w. unfold bind. rewrite Hc.
  destruct (c w) as [[a|e] w']; simpl; [apply Hk|done].
Qed.

Lemma blind_try_stmt {A B} (c : M FM A) cls (h : exn → M FM B) (k : A → M FM B) :
  history_blind c → (∀ e, history_blind (h e)) → (∀ a, history_blind (k a)) →
  history_blind (try_stmt c cls h k).
Proof.
  intros Hc Hh Hk history w. unfold try_stmt. rewrite Hc.
  destruct (c w) as [[a|e] w']; simpl; [apply Hk|].
  destruct (isinstance e cls); [apply Hh|done].
Qed.

Lemma blind_try_except {A} (c : M FM A) cls (h : exn → M FM A) :
  history_blind c → (∀ e, history_blind (h e)) →
  history_blind (try_except c cls h).
Proof.
  intros Hc Hh history w. unfold try_except. rewrite Hc.
  destruct (c w) as [[a|e] w']; simpl; [done|].
  destruct (isinstance e cls); [apply Hh|done].
Qed.

Lemma blind_emit e : history_blind (FM := FM) (emit e).
Proof. intros history w. unfold emit. simpl. by rewrite rebase_advance. Qed.

Lemma blind_print line : history_blind (FM := FM) (print line).
Proof.
  intros history w. unfold print. simpl.
  destruct (stdout w line); [done|apply blind_emit].
Qed.

Lemma blind_when cond (c : M FM unit) :
  history_blind c → history_blind (when cond c).
Proof. intros Hc. destruct cond; [done|apply blind_ret]. Qed.

Lemma blind_addfont path : history_blind (fm_fontManager_addfont path).
Proof.
  intros history w. unfold fm_fontManager_addfont. simpl.
  destruct (fm w); [|done]. simpl. by rewrite rebase_advance.
Qed.

Lemma blind_rebuild : history_blind fm__rebuild.
Proof.
  intros history w. unfold fm__rebuild. simpl.
  destruct (fm w); [|done]. simpl. by rewrite rebase_advance.
Qed.

Lemma blind_register_loop verbose files count :
  history_blind (register_loop verbose files count).
Proof.
  revert count. induction files as [|file files IH]; intros count.
  - apply blind_ret.
  - rewrite register_loop_cons. cbv zeta.
    assert (∀ c e, history_blind
              (when verbose
                 (print ("Failed to register " +:+ name file +:+ ": " +:+ exn_msg e));;
               (ret c : M FM nat))) as Hhandler.
    { intros c e. apply blind_bind; [apply blind_when, blind_print|].
      intros _. apply blind_ret. }
    apply blind_bind; [|done].
    apply blind_try_stmt; [apply blind_addfont|done|]. intros _.
    apply blind_try_stmt; [apply blind_when, blind_print|done|]. intros _.
    apply blind_ret.
Qed.

Lemma blind_register verbose : history_blind (register_source_sans_fonts verbose).
Proof.
  unfold register_source_sans_fonts.
  apply blind_bind; [done|]. intros available.
  destruct (negb available); [apply blind_raise|].
  apply blind_bind; [done|]. intros font_dir.
  apply blind_bind.
  { unfold Path_exists. apply blind_bind; [apply blind_emit|done]. }
  intros present. destruct (negb present).
  { apply blind_bind; [apply blind_when, blind_print|]. intros _. apply blind_ret. }
  apply blind_bind.
  { unfold Path_glob_ttf. apply blind_bind; [apply blind_emit|done]. }
  intros [|file files].
  { apply blind_bind; [apply blind_when, blind_print|]. intros _. apply blind_ret. }
  apply blind_bind; [apply blind_register_loop|]. intros n.
  apply blind_bind; [|intros _; apply blind_ret].
  case_bool_decide; [|apply blind_ret].
  apply blind_bind; [|intros _; apply blind_when, blind_print].
  apply blind_try_except; [apply blind_rebuild|]. intros _. apply blind_ret.
Qed.

Lemma blind_is_source_sans_available : history_blind is_source_sans_available.
Proof.
  intros history w. unfold is_source_sans_available, bind, MATPLOTLIB_AVAILABLE.
  simpl. destruct (fm w) eqn:Hm; simpl; [|done].
  unfold fm_fontManager_ttflist. simpl. by rewrite Hm.
Qed.

(** A world and the same world some events later differ only in their
    traces. *)
Lemma rebase_pair w new :
  ∃ w0 history1 history2,
    w = rebase history1 w0 ∧ advance w (fm w) new = rebase history2 w0.
Proof.
  exists {| package_dir := package_dir w; fs := fs w; stdout := stdout w;
            fm := fm w; events := [] |}, (events w), (events w ++ new).
  destruct w; unfold rebase, advance; simpl.
  by rewrite !(right_id_L [] (++)).
Qed.

(** So what a call does later is what it would have done before. *)
Lemma blind_later {A} (c : M FM A) w new :
  history_blind c →
  (c (advance w (fm w) new)).1 = (c w).1 ∧
  fm (c (advance w (fm w) new)).2 = fm (c w).2.
Proof.
  intros Hc. destruct (rebase_pair w new) as (w0 & h1 & h2 & Hw & ->).
  generalize dependent w. intros w ->. by rewrite !Hc.
Qed.
End HistoryBlind.

(** ** Traces of a registration *)

Section Traces.
Context {FM : Type} `{!FontManagerModule FM}.
Implicit Types (w : World FM).

Lemma new_events_advance w m new : new_events w (advance w m new) = new.
Proof. unfold new_events, advance; simpl. by rewrite drop_app_length. Qed.

Lemma new_events_same w : new_events w w = [].
Proof. unfold new_events. by rewrite drop_all. Qed.

Lemma fst_attempts files (m : FM) :
  interrupted (attempts files m) = None → (attempts files m).*1 = files.
Proof.
  revert m. induction files as [|file files IH]; intros m; [done|].
  rewrite attempts_cons, interrupted_cons.
  destruct (addfont (str file) m).1 as [|e]; simpl.
  - intros ?. by rewrite IH.
  - destruct (isinstance e Exception); [|done]. simpl. intros ?. by rewrite IH.
Qed.



Lemma attempted_effects evs : attempted (effects evs) = attempted evs.
Proof.
  induction evs as [|[] evs IH]; simpl; try done;
    unfold effects; rewrite ?filter_cons_True by done; simpl; by f_equal.
Qed.

Lemma registered_effects evs : registered (effects evs) = registered evs.
Proof.
  induction evs as [|[? | ? | ? [] | | ?] evs IH]; simpl; try done;
    unfold effects; rewrite ?filter_cons_True by done; simpl; by f_equal.
Qed.

Lemma attempted_addfont (atts : list (Path * outcome unit)) :
  attempted ((λ a, EvAddfont (str a.1) (returned a.2)) <$> atts) = str <$> atts.*1.
Proof. induction atts as [|[] atts IH]; simpl; [done|]. by f_equal. Qed.

Lemma registered_addfont (atts : list (Path * outcome unit)) :
  registered ((λ a, EvAddfont (str a.1) (returned a.2)) <$> atts) =
  str <$> (filter (λ a, returned a.2 = true) atts).*1.
Proof.
  induction atts as [|[file [[]|e]] atts IH]; simpl; [done| |done].
  by f_equal.
Qed.

Lemma rebuild_in_effects evs : EvRebuild ∈ evs ↔ EvRebuild ∈ effects evs.
Proof.
  unfold effects. rewrite list_elem_of_filter. split; [done|by intros []].
Qed.

Lemma rebuild_not_addfont (atts : list (Path * outcome unit)) :
  EvRebuild ∉ (λ a, EvAddfont (str a.1) (returned a.2)) <$> atts.
Proof. by intros (a & ? & _)%list_elem_of_fmap. Qed.
End Traces.

(** ** Summary of a call whose lines are all printed *)

Section Summary.
Context {FM : Type} `{!FontManagerModule FM}.
Implicit Types (w : World FM).

Lemma register_unavailable verbose w :
  fm w = None →
  register_source_sans_fonts verbose w = (Raise capability_unavailable, w).
Proof.
  intros Hm. unfold register_source_sans_fonts, bind, MATPLOTLIB_AVAILABLE.
  by rewrite Hm.
Qed.

Lemma register_available verbose w m :
  fm w = Some m →
  (verbose = true → print_works w) →
  register_source_sans_fonts verbose w =
  (register_result w m,
   advance w (Some (register_state w m)) (register_events verbose w m)).
Proof.
  intros Hm Hout. rewrite register_source_sans_fonts_spec by done.
  unfold register_spec. by rewrite Hm.
Qed.










(** The ways a call with the font manager available can end, all lines
    being printed. *)
Lemma register_result_cases w m :
  let atts := attempts (enumerated w) m in
  let rb := rebuild_call (after_attempts (enumerated w) m) in
  (∃ e, register_result w m = Raise e ∧ interrupted atts = Some e) ∨
  (interrupted atts = None ∧
   ((register_result w m = Return false ∧ ¬ 0 < successes atts) ∨
    (register_result w m = Return true ∧ 0 < successes atts ∧
     tolerated rb.1 = true) ∨
    (∃ e, register_result w m = Raise e ∧ 0 < successes atts ∧
          rb.1 = Raise e ∧ isinstance e AttributeError = false))).
Proof.
  intros atts rb. subst atts rb. unfold register_result.
  destruct (interrupted _) as [e|]; [left; by exists e|]. right. split; [done|].
  case_bool_decide as Hsucc; [|by left]. right.
  destruct (rebuild_call _).1 as [|e]; simpl; [by left|].
  destruct (isinstance e AttributeError) eqn:Hcls; [by left|].
  right. by exists e.
Qed.

Lemma is_source_sans_available_run w :
  is_source_sans_available w =
  (Return (bool_decide ("Source Sans Pro" ∈ known_families w)), w).
Proof.
  unfold is_source_sans_available, known_families.
  unfold bind at 1, MATPLOTLIB_AVAILABLE.
  destruct (fm w) as [m|] eqn:Hm; simpl; [|done].
  unfold bind, fm_fontManager_ttflist, ret. rewrite Hm. do 2 f_equal.
  apply bool_decide_ext, elem_of_list_to_set.
Qed.
End Summary.

(** ** Listing the bundled fonts *)

Section Listing.
Context {FM : Type}.
Implicit Types (w : World FM).

Lemma list_available_fonts_run w :
  let font_dir := joinpath (package_dir w) "source_sans_pro" in
  list_available_fonts w =
  (Return (sorted (filter (λ n, fnmatch_ttf n = true)
                     (default [] (fs w (str font_dir))))),
   advance w (fm w)
     (EvExists (str font_dir) ::
      if fs w (str font_dir) is Some _ then [EvGlob (str font_dir)] else [])).
Proof.
  intros font_dir. unfold list_available_fonts.
  unfold bind at 1, get_font_path. fold font_dir.
  unfold bind at 1, Path_exists, bind at 1, emit; simpl.
  destruct (fs w (str font_dir)) as [entries|] eqn:Hdir; simpl; [|done].
  unfold bind at 1, Path_glob_ttf, bind at 1, emit, ret; simpl.
  rewrite Hdir, advance_advance; simpl.
  by rewrite <-list_fmap_compose, list_fmap_id.
Qed.
End Listing.

Section ListingClaims.
Context {FM : Type}.
Implicit Types (w : World FM).

(** C4: [list_available_fonts] never fails and returns the sorted list of
    exactly the names in the font directory that end in [.ttf]: the result
    is ascending in the lexicographic order, is a rearrangement of the
    matching entries, and is empty when the directory is absent.  For a
    directory holding exactly [SourceSansPro-Regular.ttf] and
    [SourceSansPro-Bold.ttf], in whatever order they are enumerated, the
    result is [SourceSansPro-Bold.ttf; SourceSansPro-Regular.ttf]. *)
Theorem list_available_fonts_sorted_ttf w :
  let font_dir := str (joinpath (package_dir w) "source_sans_pro") in
  ∃ fonts,
    (list_available_fonts w).1 = Return fonts ∧
    StronglySorted String.le fonts ∧
    (fs w font_dir = None → fonts = []) ∧
    (∀ entries, fs w font_dir = Some entries →
       fonts ≡ₚ filter (λ n, fnmatch_ttf n = true) entries ∧
       ∀ n, n ∈ fonts ↔ n ∈ entries ∧ ∃ stem, n = stem +:+ ".ttf") ∧
    (∀ entries, fs w font_dir = Some entries →
       entries ≡ₚ ["SourceSansPro-Regular.ttf"; "SourceSansPro-Bold.ttf"] →
       fonts = ["SourceSansPro-Bold.ttf"; "SourceSansPro-Regular.ttf"]).
Proof.
  intros font_dir. rewrite list_available_fonts_run. fold font_dir.
  eexists; split; [reflexivity|].
  split; [apply sorted_StronglySorted|].
  split; [by intros ->|]. split.
  - intros entries ->; simpl. split; [apply sorted_Permutation|].
    intros n. rewrite sorted_Permutation, list_elem_of_filter.
    unfold fnmatch_ttf. rewrite endswith_spec. tauto.
  - intros entries -> Hperm; simpl.
    apply sorted_unique; [apply sorted_StronglySorted| |].
    + repeat constructor.
    + rewrite sorted_Permutation, Hperm. apply Permutation_swap.
Qed.

(** C6: [get_source_sans_weights] touches nothing and cannot fail: in
    every world, whatever the font directory holds, it returns the same
    mapping and leaves the world as it was.  The mapping has exactly the
    four keys [regular], [italic], [bold] and [bold_italic], bound to the
    Regular, Italic, Bold and BoldItalic file names. *)
Theorem get_source_sans_weights_fixed w :
  ∃ weights : gmap string string,
    get_source_sans_weights w = (Return weights, w) ∧
    size weights = 4 ∧
    weights !! "regular" = Some "SourceSansPro-Regular.ttf" ∧
    weights !! "italic" = Some "SourceSansPro-Italic.ttf" ∧
    weights !! "bold" = Some "SourceSansPro-Bold.ttf" ∧
    weights !! "bold_italic" = Some "SourceSansPro-BoldItalic.ttf".
Proof. eexists; split; [reflexivity|]. by vm_compute. Qed.

(** C5: in a world whose font directory has the bundled layout, every
    file name that [get_source_sans_weights] maps a weight to is in the
    list that [list_available_fonts] returns. *)
Theorem weights_in_available_fonts w entries weights fonts :
  fs w (str (joinpath (package_dir w) "source_sans_pro")) = Some entries →
  bundled_layout entries →
  (get_source_sans_weights w).1 = Return weights →
  (list_available_fonts w).1 = Return fonts →
  ∀ weight filename, weights !! weight = Some filename → filename ∈ fonts.
Proof.
  intros Hdir Hlayout [= <-]. rewrite list_available_fonts_run, Hdir.
  intros [= <-] weight filename Hin.
  rewrite sorted_Permutation, list_elem_of_filter.
  repeat (apply lookup_insert_Some in Hin as [[_ <-]|[_ Hin]];
          [split; [by vm_compute|apply Hlayout; set_solver]|]).
  by rewrite lookup_empty in Hin.
Qed.
End ListingClaims.


(** ** What the trace of any call shows *)

Section Outcome.
Context {FM : Type} `{!FontManagerModule FM}.
Implicit Types (w : World FM).


Lemma register_outcome verbose w m :
  fm w = Some m →
  let font_dir := joinpath (package_dir w) "source_sans_pro" in
  let rb := rebuild_call (after_attempts (enumerated w) m) in
  let r := register_source_sans_fonts verbose w in
  let new := new_events w r.2 in
  ∃ k (rebuilt : bool),
    let tried := attempts (take k (enumerated w)) m in
    head new = Some (EvExists (str font_dir)) ∧
    attempted new = str <$> tried.*1 ∧
    registered new = str <$> (filter (λ a, returned a.2 = true) tried).*1 ∧
    (EvRebuild ∈ new ↔ rebuilt = true) ∧
    fm r.2 = Some (if rebuilt then rb.2
                   else after_attempts (take k (enumerated w)) m) ∧
    (rebuilt = true →
       take k (enumerated w) = enumerated w ∧
       interrupted (attempts (enumerated w) m) = None ∧
       0 < successes (attempts (enumerated w) m)) ∧
    (∀ b, r.1 = Return b →
       take k (enumerated w) = enumerated w ∧
       interrupted (attempts (enumerated w) m) = None ∧
       b = bool_decide (0 < successes (attempts (enumerated w) m)) ∧
       rebuilt = b).
Proof.
  intros Hm font_dir rb r new. subst r new rb.
  destruct (register_progress verbose w m Hm)
    as (k & rebuilt & rest & r & -> & Heff & Hrebuilt & Hret).
  fold font_dir in Heff |- *.
  exists k, rebuilt. cbn [fst snd]. rewrite new_events_advance.
  split_and!; [done| | | |done..].
  - rewrite <-attempted_effects. effects_norm. rewrite Heff.
    unfold attempted. rewrite !omap_app. simpl.
    fold (attempted ((λ a, EvAddfont (str a.1) (returned a.2)) <$>
                       attempts (take k (enumerated w)) m)).
    rewrite attempted_addfont.
    destruct (fs w _), rebuilt; simpl; by rewrite ?(right_id_L [] (++)).
  - rewrite <-registered_effects. effects_norm. rewrite Heff.
    unfold registered. rewrite !omap_app. simpl.
    fold (registered ((λ a, EvAddfont (str a.1) (returned a.2)) <$>
                        attempts (take k (enumerated w)) m)).
    rewrite registered_addfont.
    destruct (fs w _), rebuilt; simpl; by rewrite ?(right_id_L [] (++)).
  - rewrite rebuild_in_effects. effects_norm. rewrite Heff.
    rewrite !elem_of_app.
    pose proof (rebuild_not_addfont (attempts (take k (enumerated w)) m)) as Hnot.
    split.
    + intros [Hin|[Hin|[?|Hin]]]; [| |done|].
      * by apply list_elem_of_singleton in Hin.
      * destruct (fs w _); [|by apply elem_of_nil in Hin].
        by apply list_elem_of_singleton in Hin.
      * destruct rebuilt; [done|by apply elem_of_nil in Hin].
    + intros ->. do 3 right. left.
Qed.
End Outcome.

(** ** Registration *)

Section RegisterClaims.
Context {FM : Type} `{!FontManagerModule FM}.
Implicit Types (w : World FM).


(** C2, as the code has it: without the font manager the call raises its
    [ImportError] at once, leaving the world exactly as it was: no file
    system access, no registration attempt, nothing printed; and with the
    font manager the guard does not raise: the call goes on to test the
    font directory, so the world is left untouched with that error exactly
    when the font manager is missing.  It is not the only error that can
    leave the call.  In a quiet call, an error of [addfont] that is not an
    [Exception] leaves it, and so does an error of the rebuild that is not
    an [AttributeError]; in a verbose call an error of [print] does, as for
    the line about a missing directory. *)
Theorem register_raises verbose w :
  let font_dir := str (joinpath (package_dir w) "source_sans_pro") in
  let r := register_source_sans_fonts verbose w in
  (fm w = None ↔ r = (Raise capability_unavailable, w)) ∧
  isinstance capability_unavailable ImportError = true ∧
  (is_Some (fm w) → head (new_events w r.2) = Some (EvExists font_dir)) ∧
  (∀ m, fm w = Some m → verbose = false →
     let atts := attempts (enumerated w) m in
     let rb := rebuild_call (after_attempts (enumerated w) m) in
     (∀ e, interrupted atts = Some e → r.1 = Raise e) ∧
     (∀ e, interrupted atts = None → 0 < successes atts → rb.1 = Raise e →
           isinstance e AttributeError = false → r.1 = Raise e)) ∧
  (∀ m e, fm w = Some m → verbose = true → fs w font_dir = None →
     stdout w ("Font directory not found: " +:+ font_dir) = Some e →
     r.1 = Raise e).
Proof.
  intros font_dir r. split_and!.
  - split; [apply register_unavailable|].
    destruct (fm w) as [m|] eqn:Hm; [|done]. intros Hr.
    destruct (register_outcome verbose w m Hm) as (k & rebuilt & Hhead & _).
    fold r in Hhead. rewrite Hr in Hhead. cbn [snd] in Hhead.
    by rewrite new_events_same in Hhead.
  - done.
  - intros [m Hm].
    by destruct (register_outcome verbose w m Hm) as (k & rebuilt & Hhead & _).
  - intros m Hm -> atts rb. subst r atts rb.
    rewrite (register_available _ _ _ Hm) by done. cbn [fst].
    destruct (register_result_cases w m)
      as [(e & -> & He)|[Hnone [[-> Hsucc]|[[-> [Hsucc Htol]]|(e & -> & Hsucc & Hrb & Hcls)]]]];
      rewrite ?He, ?Hnone; split; try done; try congruence.
    + intros e _ _ Hrb Hcls. rewrite Hrb in Htol. simpl in Htol. congruence.
  - intros m e Hm -> Hdir Hout. subst r.
    unfold register_source_sans_fonts, bind at 1, MATPLOTLIB_AVAILABLE.
    rewrite Hm. simpl. unfold bind at 1, get_font_path.
    unfold bind at 1, Path_exists, bind at 1, emit; simpl.
    fold font_dir. rewrite Hdir. simpl.
    unfold bind, print. simpl. by rewrite Hout.
Qed.




(** C10: without matplotlib the availability check is safe where the
    registration is not: [is_source_sans_available] returns [False] and
    leaves the world alone, while [register_source_sans_fonts] raises its
    [ImportError] from the same world.  In no world at all does the check
    raise. *)
Theorem availability_check_is_safe verbose w :
  fm w = None →
  is_source_sans_available w = (Return false, w) ∧
  register_source_sans_fonts verbose w = (Raise capability_unavailable, w) ∧
  isinstance capability_unavailable ImportError = true ∧
  (∀ w', ∃ b, is_source_sans_available w' = (Return b, w')).
Proof.
  intros Hm. split_and!.
  - rewrite is_source_sans_available_run. unfold known_families.
    by rewrite Hm.
  - by apply register_unavailable.
  - done.
  - intros w'. eexists. apply is_source_sans_available_run.
Qed.
End RegisterClaims.

(** ** The recording font manager and the availability check *)

Section Recording.
Context (scan : string → outcome FontEntry.t) (rebuild : option (outcome unit)).

Lemma recording_keeps files known entry :
  entry ∈ known →
  entry ∈ @after_attempts _ (recording_fm scan rebuild) files known.
Proof.
  revert known. induction files as [|file files IH]; intros known Hin; [done|].
  rewrite after_attempts_cons. simpl.
  destruct (scan (str file)) as [entry'|e]; simpl.
  - apply IH, elem_of_app. by left.
  - destruct (isinstance e Exception); simpl; [by apply IH|done].
Qed.

Lemma recording_registered files known file entry :
  (file, Return ()) ∈ @attempts _ (recording_fm scan rebuild) files known →
  scan (str file) = Return entry →
  entry ∈ @after_attempts _ (recording_fm scan rebuild) files known.
Proof.
  revert known. induction files as [|file' files IH]; intros known.
  { by intros ?%elem_of_nil. }
  rewrite attempts_cons, after_attempts_cons. simpl.
  destruct (scan (str file')) as [entry'|e] eqn:Hscan'; simpl.
  - intros [[= ->]|Hin]%elem_of_cons Hscan.
    + apply recording_keeps, elem_of_app. right.
      rewrite Hscan in Hscan'. injection Hscan' as ->. left.
    + by apply IH.
  - intros [[=]|Hin]%elem_of_cons Hscan.
    destruct (isinstance e Exception); simpl in *; [by apply IH|].
    by apply elem_of_nil in Hin.
Qed.

Lemma recording_rebuild known :
  (@rebuild_call _ (recording_fm scan rebuild) known).2 = known.
Proof. unfold rebuild_call. simpl. by destruct rebuild. Qed.
End Recording.

(** C7: the check returns [True] exactly when [Source Sans Pro] is among the
    family names the font manager knows, and it leaves the world alone; so
    it returns [False] as long as no such family is known.  Against a font
    manager that records what it is given, once a call of
    [register_source_sans_fonts] registered a file that reads as a face of
    that family, the check returns [True]. *)
Theorem is_source_sans_available_iff_known :
  (∀ FM (F : FontManagerModule FM) (w : World FM),
     ∃ b, is_source_sans_available w = (Return b, w) ∧
          (b = true ↔ "Source Sans Pro" ∈ known_families w)) ∧
  (∀ FM (F : FontManagerModule FM) (w : World FM),
     "Source Sans Pro" ∉ known_families w →
     (is_source_sans_available w).1 = Return false) ∧
  (∀ scan rebuild verbose (w : World (list FontEntry.t)) known path entry,
     fm w = Some known →
     let w' := (@register_source_sans_fonts _ (recording_fm scan rebuild)
                  verbose w).2 in
     path ∈ registered (new_events w w') →
     scan path = Return entry →
     FontEntry.name entry = "Source Sans Pro" →
     (@is_source_sans_available _ (recording_fm scan rebuild) w').1 = Return true).
Proof.
  split_and!.
  - intros FM F w. eexists. split; [apply is_source_sans_available_run|].
    apply bool_decide_eq_true.
  - intros FM F w Hno. rewrite is_source_sans_available_run. simpl.
    by rewrite bool_decide_eq_false_2.
  - intros scan rebuild verbose w known path entry Hm w'. subst w'.
    destruct (@register_outcome _ (recording_fm scan rebuild) verbose w known Hm)
      as (k & rebuilt & _ & _ & Hreg & _ & Hfm & Hrebuilt & _).
    rewrite Hreg. intros Hpath Hscan Hname.
    rewrite is_source_sans_available_run. cbn [fst]. f_equal.
    apply bool_decide_eq_true_2. unfold known_families. rewrite Hfm. simpl.
    apply list_elem_of_fmap. exists entry. split; [done|].
    apply list_elem_of_fmap in Hpath as (file & -> & Hin).
    apply list_elem_of_fmap in Hin as ([file' r] & -> & Hin); simpl in *.
    apply list_elem_of_filter in Hin as [Hok Hin]; simpl in *.
    destruct r as [[]|]; [|done].
    pose proof (recording_registered scan rebuild _ _ _ _ Hin Hscan) as Hrec.
    destruct rebuilt; [|done].
    destruct (Hrebuilt eq_refl) as (Htake & _). rewrite Htake in Hrec.
    by rewrite recording_rebuild.
Qed.

(** ** Concrete runs *)

Example list_available_fonts_example :
  (list_available_fonts
     (@world_of (list FontEntry.t)
        (Some ["SourceSansPro-Regular.ttf"; "OFL.txt"; "SourceSansPro-Bold.ttf"])
        None)).1 =
  Return ["SourceSansPro-Bold.ttf"; "SourceSansPro-Regular.ttf"].
Proof. reflexivity. Qed.

Example register_bundled_example :
  let r := @register_source_sans_fonts _ fm_without_rebuild true
             (world_of (Some ["broken.ttf"; "SourceSansPro-Bold.ttf"]) (Some [])) in
  r.1 = Return true ∧
  printed (events r.2) =
    ["Failed to register broken.ttf: Can not load face";
     "Registered: SourceSansPro-Bold.ttf";
     "Successfully registered 1 font(s)"].
Proof. by vm_compute. Qed.

Example register_no_directory_example :
  let r := @register_source_sans_fonts _ fm_with_rebuild false
             (world_of None (Some [])) in
  r.1 = Return false ∧ attempted (events r.2) = [].
Proof. by vm_compute. Qed.

(** The standard output is closed: the first file registers, the line
    about it cannot be printed, the handler cannot print either, and its
    error leaves the call after one attempt, before any rebuild. *)
Example register_closed_stdout_example :
  let r := @register_source_sans_fonts _ fm_with_rebuild true
             (world_closed_stdout
                (Some ["SourceSansPro-Regular.ttf"; "SourceSansPro-Bold.ttf"])
                (Some [])) in
  r.1 = Raise closed_file ∧
  length (attempted (events r.2)) = 1 ∧ length (registered (events r.2)) = 1 ∧
  EvRebuild ∉ events r.2.
Proof.
  split_and!; [by vm_compute..|].
  apply (bool_decide_unpack _). by vm_compute.
Qed.

(** An interrupt from the keyboard while [addfont] reads the second of
    three files is not caught: the call ends with it, the third file is not
    attempted and the rebuild is not. *)
Example register_interrupted_example :
  let r := @register_source_sans_fonts _ fm_interrupted false
             (world_of
                (Some ["SourceSansPro-Regular.ttf"; "slow.ttf";
                       "SourceSansPro-Bold.ttf"])
                (Some [])) in
  r.1 = Raise ctrl_c ∧
  length (attempted (events r.2)) = 2 ∧ length (registered (events r.2)) = 1.
Proof. by vm_compute. Qed.

(** ** Where the claims as written fail *)


(** C2 as written fails: the font manager is there, and the call still ends
    in an error, the [TimeoutError] of the rebuild. *)
Lemma raises_with_font_manager :
  let w := world_of
             (Some ["SourceSansPro-Regular.ttf"; "SourceSansPro-Italic.ttf";
                    "SourceSansPro-Bold.ttf"; "SourceSansPro-BoldItalic.ttf"])
             (Some []) in
  let r := @register_source_sans_fonts _ fm_locked_cache true w in
  ¬ (∀ e, r.1 = Raise e → fm w = None ∧ isinstance e ImportError = true).
Proof. vm_compute. intros H. by destruct (H _ eq_refl). Qed.




(** ** The theorems at concrete worlds *)


Lemma register_raises_witness :
  let w := @world_of (list FontEntry.t) (Some ["SourceSansPro-Regular.ttf"]) None in
  fm w = None ∧
  @register_source_sans_fonts _ fm_with_rebuild true w =
  (Raise capability_unavailable, w).
Proof.
  split; [reflexivity|].
  destruct (@register_raises _ fm_with_rebuild true
              (world_of (Some ["SourceSansPro-Regular.ttf"]) None))
    as (H & _).
  apply H. reflexivity.
Defined.




Lemma availability_check_is_safe_witness :
  let w := @world_of (list FontEntry.t) None None in
  fm w = None ∧
  @is_source_sans_available _ fm_without_rebuild w = (Return false, w) ∧
  @register_source_sans_fonts _ fm_without_rebuild false w =
  (Raise capability_unavailable, w).
Proof.
  split; [reflexivity|].
  destruct (@availability_check_is_safe _ fm_without_rebuild false
              (world_of None None) eq_refl) as (Hcheck & Hreg & _).
  split; [exact Hcheck|exact Hreg].
Defined.

Lemma list_available_fonts_sorted_ttf_witness :
  let w := @world_of (list FontEntry.t)
             (Some ["SourceSansPro-Regular.ttf"; "SourceSansPro-Bold.ttf"]) None in
  (list_available_fonts w).1 =
  Return ["SourceSansPro-Bold.ttf"; "SourceSansPro-Regular.ttf"].
Proof.
  destruct (list_available_fonts_sorted_ttf
              (@world_of (list FontEntry.t)
                 (Some ["SourceSansPro-Regular.ttf"; "SourceSansPro-Bold.ttf"]) None))
    as (fonts & Hrun & _ & _ & _ & Hpair).
  cbv zeta. rewrite Hrun. f_equal.
  apply (Hpair ["SourceSansPro-Regular.ttf"; "SourceSansPro-Bold.ttf"]);
    reflexivity.
Defined.

Lemma weights_in_available_fonts_witness :
  let entries := ["OFL.txt"; "SourceSansPro-Regular.ttf"; "SourceSansPro-Light.ttf";
                  "SourceSansPro-Italic.ttf"; "SourceSansPro-Bold.ttf";
                  "SourceSansPro-BoldItalic.ttf"] in
  let w := @world_of (list FontEntry.t) (Some entries) None in
  bundled_layout entries ∧
  ∃ weights fonts,
    (get_source_sans_weights w).1 = Return weights ∧
    (list_available_fonts w).1 = Return fonts ∧
    ∀ weight filename, weights !! weight = Some filename → filename ∈ fonts.
Proof.
  assert (bundled_layout
            ["OFL.txt"; "SourceSansPro-Regular.ttf"; "SourceSansPro-Light.ttf";
             "SourceSansPro-Italic.ttf"; "SourceSansPro-Bold.ttf";
             "SourceSansPro-BoldItalic.ttf"]) as Hlayout.
  { apply (bool_decide_unpack _). vm_compute. exact I. }
  split; [exact Hlayout|].
  eexists _, _. split; [reflexivity|]. split; [reflexivity|].
  exact (weights_in_available_fonts
           (@world_of (list FontEntry.t)
              (Some ["OFL.txt"; "SourceSansPro-Regular.ttf";
                     "SourceSansPro-Light.ttf"; "SourceSansPro-Italic.ttf";
                     "SourceSansPro-Bold.ttf"; "SourceSansPro-BoldItalic.ttf"])
              None)
           _ _ _ eq_refl Hlayout eq_refl eq_refl).
Defined.

Lemma is_source_sans_available_iff_known_witness :
  let w := world_of (Some ["SourceSansPro-Regular.ttf"]) (Some []) in
  (@is_source_sans_available _ fm_without_rebuild w).1 = Return false ∧
  (@is_source_sans_available _ fm_without_rebuild
     (@register_source_sans_fonts _ fm_without_rebuild false w).2).1 = Return true.
Proof.
  destruct is_source_sans_available_iff_known as (_ & Hbefore & Hafter).
  split.
  - apply Hbefore. vm_compute. intros H. inversion H.
  - apply (Hafter scan_bundled None false
             (world_of (Some ["SourceSansPro-Regular.ttf"]) (Some [])) []
             (str (joinpath (joinpath site_packages "source_sans_pro")
                     "SourceSansPro-Regular.ttf"))
             {| FontEntry.fname :=
                  str (joinpath (joinpath site_packages "source_sans_pro")
                         "SourceSansPro-Regular.ttf");
                FontEntry.name := "Source Sans Pro" |});
      [reflexivity| |reflexivity..].
    vm_compute. left.
Defined.


(** * Further properties of the module *)

(** ** The font directory, one for all functions *)

Section FontPath.
Context {FM : Type} `{!FontManagerModule FM}.
Implicit Types (w : World FM).


(** X1: [get_font_path] answers without looking at the disk, also when the
    directory does not exist, and the path it gives is the one the other
    functions go to: the first thing [list_available_fonts] does, and the
    first thing [register_source_sans_fonts] does once matplotlib is there,
    is to test that very path for existence. *)
Theorem get_font_path_is_the_directory_used verbose w :
  ∃ font_dir,
    get_font_path w = (Return font_dir, w) ∧
    font_dir = joinpath (package_dir w) "source_sans_pro" ∧
    head (new_events w (list_available_fonts w).2) = Some (EvExists (str font_dir)) ∧
    (is_Some (fm w) →
     head (new_events w (register_source_sans_fonts verbose w).2) =
     Some (EvExists (str font_dir))).
Proof.
  eexists. split; [reflexivity|]. split; [reflexivity|]. split.
  - rewrite list_available_fonts_run. cbn [snd].
    by rewrite new_events_advance.
  - intros [m Hm].
    by destruct (register_outcome verbose w m Hm) as (k & rebuilt & Hhead & _).
Qed.

End FontPath.

(** ** Listing *)

Section ListingMore.
Context {FM : Type} `{!FontManagerModule FM}.
Implicit Types (w : World FM).

(** X3: listing only reads.  [list_available_fonts] leaves the font manager
    and the disk as they were, hands nothing to [addfont], attempts no
    rebuild and prints nothing; so a registration or an availability check
    run after it ends exactly as it would have without it, and leaves the
    font manager in the same state. *)
Theorem listing_only_reads verbose w :
  let listed := (list_available_fonts w).2 in
  fm listed = fm w ∧ fs listed = fs w ∧ package_dir listed = package_dir w ∧
  effects (new_events w listed) = new_events w listed ∧
  attempted (new_events w listed) = [] ∧
  (EvRebuild ∉ new_events w listed) ∧
  (register_source_sans_fonts verbose listed).1 =
    (register_source_sans_fonts verbose w).1 ∧
  fm (register_source_sans_fonts verbose listed).2 =
    fm (register_source_sans_fonts verbose w).2 ∧
  (is_source_sans_available listed).1 = (is_source_sans_available w).1.
Proof.
  intros listed. subst listed. rewrite list_available_fonts_run. cbn [snd].
  rewrite new_events_advance.
  set (font_dir := joinpath (package_dir w) "source_sans_pro").
  set (seen := EvExists (str font_dir) :: _).
  assert (effects seen = seen ∧ attempted seen = [] ∧ EvRebuild ∉ seen)
    as (? & ? & ?).
  { subst seen. destruct (fs w (str font_dir)); split_and!; try done.
    - by intros [?|[?|?%elem_of_nil]%elem_of_cons]%elem_of_cons.
    - by intros [?|?%elem_of_nil]%elem_of_cons. }
  split_and!; try done.
  - apply blind_later, blind_register.
  - apply blind_later, blind_register.
  - apply blind_later, blind_is_source_sans_available.
Qed.

(** X4: the listing does not depend on the order in which the operating
    system enumerates the directory: two worlds with the same package
    directory whose font directories hold the same entries, in any order,
    get the same list. *)
Theorem listing_ignores_enumeration_order w1 w2 entries1 entries2 :
  package_dir w1 = package_dir w2 →
  fs w1 (str (joinpath (package_dir w1) "source_sans_pro")) = Some entries1 →
  fs w2 (str (joinpath (package_dir w2) "source_sans_pro")) = Some entries2 →
  entries1 ≡ₚ entries2 →
  (list_available_fonts w1).1 = (list_available_fonts w2).1.
Proof.
  intros Hpkg Hdir1 Hdir2 Hperm. rewrite !list_available_fonts_run.
  rewrite Hdir1, Hdir2. cbn [fst default]. f_equal.
  apply sorted_unique; [apply sorted_StronglySorted..|].
  by rewrite !sorted_Permutation, Hperm.
Qed.

Lemma StronglySorted_strict (l : list string) :
  StronglySorted String.le l → NoDup l → StronglySorted str_lt l.
Proof.
  induction 1 as [|x l Hsorted IH Hall]; intros Hnodup; [constructor|].
  apply NoDup_cons in Hnodup as [Hx Hnodup].
  constructor; [by apply IH|].
  apply Forall_forall. intros y Hy. split.
  - by eapply Forall_forall in Hall.
  - by intros ->.
Qed.

(** X5: a directory has no two entries of the same name, and then the
    listing has no duplicates and is strictly ascending. *)
Theorem listing_strictly_ascending w entries fonts :
  fs w (str (joinpath (package_dir w) "source_sans_pro")) = Some entries →
  NoDup entries →
  (list_available_fonts w).1 = Return fonts →
  NoDup fonts ∧ StronglySorted str_lt fonts.
Proof.
  intros Hdir Hnodup. rewrite list_available_fonts_run, Hdir.
  intros [= <-].
  assert (NoDup (sorted (filter (λ n, fnmatch_ttf n = true) entries))) as Hnd.
  { rewrite sorted_Permutation. by apply NoDup_filter. }
  split; [done|]. apply StronglySorted_strict; [apply sorted_StronglySorted|done].
Qed.
End ListingMore.

(** ** Registration *)

Section RegistrationMore.
Context {FM : Type} `{!FontManagerModule FM}.
Implicit Types (w : World FM).









(** X9: the loop over the font files, whatever [addfont] and [print]
    raise.  It gets through the files in order up to some point, leaves
    the font manager as the calls it made left it, and has handed exactly
    those files to [addfont].  When it returns, it has handed every file
    to [addfont] once and its count is the count it started from plus the
    number of files that registered, at most the number of files more. *)
Theorem register_loop_counts verbose files count w m :
  fm w = Some m →
  ∃ k,
    let run := register_loop verbose files count w in
    let tried := attempts (take k files) m in
    fm run.2 = Some (after_attempts (take k files) m) ∧
    attempted (new_events w run.2) = str <$> tried.*1 ∧
    registered (new_events w run.2) =
      str <$> (filter (λ a, returned a.2 = true) tried).*1 ∧
    ∀ n, run.1 = Return n →
      attempted (new_events w run.2) = str <$> files ∧
      n = count + length (registered (new_events w run.2)) ∧
      n ≤ count + length files.
Proof.
  intros Hm.
  destruct (register_loop_progress verbose files count w m Hm)
    as (k & new & r & -> & Heff & Hret).
  exists k. cbn [fst snd]. rewrite new_events_advance.
  rewrite <-registered_effects, <-attempted_effects, Heff.
  rewrite registered_addfont, attempted_addfont.
  split_and!; [done..|].
  intros n Hn. destruct (Hret n Hn) as (-> & Hint & ->).
  rewrite fst_attempts, !length_fmap by done. split_and!; [done..|].
  unfold successes. apply Nat.add_le_mono_l.
  etrans; [apply length_filter|].
  by rewrite <-(length_fmap fst (attempts files m)), fst_attempts.
Qed.
End RegistrationMore.

(** ** The weight table against the directory *)

Section WeightsMore.
Context {FM : Type}.
Implicit Types (w : World FM).

(** X10: whatever the font directory holds, a file the weight table names
    is in the listing exactly when it is an entry of the directory, since
    every name in the table ends in [.ttf]; with the directory missing none
    is listed.  No two weights share a file. *)
Theorem weight_file_listed_iff_present w weights fonts :
  (get_source_sans_weights w).1 = Return weights →
  (list_available_fonts w).1 = Return fonts →
  let font_dir := joinpath (package_dir w) "source_sans_pro" in
  (∀ weight filename, weights !! weight = Some filename →
     fnmatch_ttf filename = true ∧
     (filename ∈ fonts ↔ filename ∈ default [] (fs w (str font_dir)))) ∧
  (∀ weight1 weight2 filename,
     weights !! weight1 = Some filename → weights !! weight2 = Some filename →
     weight1 = weight2).
Proof.
  intros [= <-]. rewrite list_available_fonts_run. intros [= <-] font_dir.
  split.
  - intros weight filename Hin.
    assert (fnmatch_ttf filename = true) as Httf.
    { repeat (apply lookup_insert_Some in Hin as [[_ <-]|[_ Hin]];
              [by vm_compute|]).
      by rewrite lookup_empty in Hin. }
    split; [done|]. rewrite sorted_Permutation, list_elem_of_filter. tauto.
  - intros weight1 weight2 filename H1 H2.
    repeat (apply lookup_insert_Some in H1 as [[<- <-]|[_ H1]];
            [repeat (apply lookup_insert_Some in H2 as [[<- ?]|[_ H2]];
                     [done|]);
             by rewrite lookup_empty in H2|]).
    by rewrite lookup_empty in H1.
Qed.
End WeightsMore.


(** ** The further properties at concrete worlds *)

Lemma get_font_path_is_the_directory_used_witness :
  let w := world_of (Some ["SourceSansPro-Bold.ttf"]) (Some []) in
  head (new_events w (@register_source_sans_fonts _ fm_with_rebuild false w).2) =
  Some (EvExists (str (joinpath site_packages "source_sans_pro"))).
Proof.
  destruct (@get_font_path_is_the_directory_used _ fm_with_rebuild false
              (world_of (Some ["SourceSansPro-Bold.ttf"]) (Some [])))
    as (font_dir & _ & -> & _ & H).
  apply H. exists []. reflexivity.
Defined.


Lemma listing_ignores_enumeration_order_witness :
  (list_available_fonts
     (@world_of (list FontEntry.t)
        (Some ["SourceSansPro-Regular.ttf"; "SourceSansPro-Bold.ttf"; "OFL.txt"])
        None)).1 =
  (list_available_fonts
     (@world_of (list FontEntry.t)
        (Some ["OFL.txt"; "SourceSansPro-Bold.ttf"; "SourceSansPro-Regular.ttf"])
        None)).1.
Proof.
  apply (@listing_ignores_enumeration_order (list FontEntry.t)
           (world_of (Some ["SourceSansPro-Regular.ttf"; "SourceSansPro-Bold.ttf";
                            "OFL.txt"]) None)
           (world_of (Some ["OFL.txt"; "SourceSansPro-Bold.ttf";
                            "SourceSansPro-Regular.ttf"]) None)
           ["SourceSansPro-Regular.ttf"; "SourceSansPro-Bold.ttf"; "OFL.txt"]
           ["OFL.txt"; "SourceSansPro-Bold.ttf"; "SourceSansPro-Regular.ttf"]);
    [reflexivity..|].
  apply (bool_decide_unpack _). vm_compute. exact I.
Defined.

Lemma listing_strictly_ascending_witness :
  StronglySorted str_lt ["SourceSansPro-Bold.ttf"; "SourceSansPro-Regular.ttf"].
Proof.
  apply (@listing_strictly_ascending (list FontEntry.t)
           (world_of (Some ["SourceSansPro-Regular.ttf"; "SourceSansPro-Bold.ttf"])
              None)
           ["SourceSansPro-Regular.ttf"; "SourceSansPro-Bold.ttf"]
           ["SourceSansPro-Bold.ttf"; "SourceSansPro-Regular.ttf"]);
    [reflexivity| |reflexivity].
  apply (bool_decide_unpack _). vm_compute. exact I.
Defined.





Lemma register_loop_counts_witness :
  ∃ n,
    (@register_loop _ fm_without_rebuild true
       [joinpath site_packages "a.ttf"; joinpath site_packages "SourceSansPro-It.ttf"]
       5 (world_of None (Some []))).1 = Return n ∧
    n ≤ 5 + 2.
Proof.
  destruct (@register_loop_counts _ fm_without_rebuild true
              [joinpath site_packages "a.ttf";
               joinpath site_packages "SourceSansPro-It.ttf"]
              5 (world_of None (Some [])) [] eq_refl)
    as (k & _ & _ & _ & H).
  exists 6. split; [reflexivity|].
  exact (proj2 (proj2 (H 6 eq_refl))).
Defined.

Lemma weight_file_listed_iff_present_witness :
  let w := @world_of (list FontEntry.t)
             (Some ["SourceSansPro-Regular.ttf"; "SourceSansPro-Bold.ttf"]) None in
  ∃ weights fonts,
    (get_source_sans_weights w).1 = Return weights ∧
    (list_available_fonts w).1 = Return fonts ∧
    ("SourceSansPro-Italic.ttf" ∈ fonts ↔
     "SourceSansPro-Italic.ttf" ∈ ["SourceSansPro-Regular.ttf"; "SourceSansPro-Bold.ttf"]).
Proof.
  eexists _, _. split; [reflexivity|]. split; [reflexivity|].
  destruct (weight_file_listed_iff_present
              (@world_of (list FontEntry.t)
                 (Some ["SourceSansPro-Regular.ttf"; "SourceSansPro-Bold.ttf"]) None)
              _ _ eq_refl eq_refl) as [H _].
  exact (proj2 (H "italic" "SourceSansPro-Italic.ttf" eq_refl)).
Defined.
